(** * Immobilien: amortization solver and buy-versus-rent simulators

    A shallow embedding of the numeric core of [src/app.py]:
    [calculate_amortization], [buying_vs_renting], [buying_vs_renting2]
    and [buying_vs_renting3].

    Number model.  Python numbers are embedded as exact rationals [Q]
    (loan terms and month counters as [Z]).  Every arithmetic operation
    of the source is kept, in the order the source performs it, but it is
    carried out without rounding, overflow, infinities or NaN.  Python's
    exceptions are kept: a true division by zero and a zero base raised
    to a negative power raise [ZeroDivisionError], the two explicit
    [raise ValueError(...)] statements are modelled with their messages,
    and reading a local that was never bound raises [UnboundLocalError].

    What the model does not see.  The program runs on binary64 floats.
    The theorems below are those whose outcome does not hinge on
    rounding: which branch is taken, which exception is raised, how many
    passes a loop can make, signs, and which inputs a result depends on.
    Where rounding decides, the program and the exact model part ways and
    nothing is stated here:
    - when [1 + annual_interest_rate / 12.0] rounds to [1.0] (a rate such
      as 1e-15) the term-known branch divides by [1 - 1.0 = 0.0] and
      raises [ZeroDivisionError]; for rates a little larger the quotient
      is off by several percent;
    - the [while] loop can make one pass more than exact arithmetic would
      (361 months for the payment of a 30-year loan), it stops moving
      when the principal is less than half a unit in the last place of
      the balance and then runs into its cap, and within one unit in the
      last place of [payment = interest] it raises or returns differently;
    - the interest added up by the re-walk follows the balances the
      program computes, so it differs wherever those do.

    Equalities between amounts are stated with [==] (equality of
    rationals as numbers); month counts, exceptions and list shapes are
    compared with Leibniz equality. *)

From Stdlib Require Import QArith Qpower ZArith List String Lia Lqa Bool.
From Stdlib Require Import Setoid Morphisms.
Import ListNotations.

Local Open Scope Z_scope.
Local Open Scope Q_scope.

(** ** Python runtime: exceptions, comparisons, division, power, range *)

Inductive exn : Type :=
| ValueError (msg : string)
| ZeroDivisionError
| UnboundLocalError (name : string).

(** A computation either raises or returns. *)
Definition result (A : Type) : Type := (exn + A)%type.

Definition ret {A} (a : A) : result A := inr a.
Definition raise {A} (e : exn) : result A := inl e.
Definition bind {A B} (c : result A) (k : A -> result B) : result B :=
  match c with
  | inl e => inl e
  | inr a => k a
  end.

Notation "x <- c ;; k" := (bind c (fun x => k))
  (at level 61, c at next level, right associativity).

(** [a < b] as a test. *)
Definition Qlt_bool (a b : Q) : bool := negb (Qle_bool b a).

(** Python's [a / b] on numbers. *)
Definition py_div (a b : Q) : result Q :=
  if Qeq_bool b 0 then raise ZeroDivisionError else ret (a / b).

(** Python's [a ** e] with an integer exponent. *)
Definition py_pow (a : Q) (e : Z) : result Q :=
  if Qeq_bool a 0 && (e <? 0)%Z then raise ZeroDivisionError else ret (a ^ e).

(** Python's two-argument [max] and [min]: the first argument wins ties. *)
Definition py_max (a b : Q) : Q := if Qlt_bool a b then b else a.
Definition py_min (a b : Q) : Q := if Qlt_bool b a then b else a.

(** [range(lo, hi)] and [range(n)]. *)
Definition py_range (lo hi : Z) : list Z :=
  map (fun i => (lo + Z.of_nat i)%Z) (seq 0 (Z.to_nat (hi - lo))).

Definition range (n : Z) : list Z := py_range 0 n.

(** ** calculate_amortization *)

Definition too_low_msg : string := "Monthly payment too low to cover interest.".
Definition exactly_one_msg : string :=
  "Provide exactly one of (monthly_payment or loan_term).".

Record AmortizationResult : Type := mkAmortizationResult {
  monthly_payment : Q;
  total_interest_paid : Q;
  total_months : Z;
  initial_tilgung_rate : Q
}.

(** The [while remaining_balance > 0] loop of the payment-known branch.
    The state is [(remaining_balance, months)]; the value is the final
    [months], or the exception raised inside the loop.  [None] means the
    fuel ran out before the loop left.  Balance, interest and principal
    are exact here; the passes the program makes on floats can differ
    (see the head of the file). *)
Fixpoint depletion_loop (fuel : nat) (monthly_interest_rate monthly_payment : Q)
    (remaining_balance : Q) (months : Z) : option (result Z) :=
  if Qlt_bool 0 remaining_balance then
    match fuel with
    | O => None
    | S fuel' =>
        let months := (months + 1)%Z in
        let interest := remaining_balance * monthly_interest_rate in
        let principal := monthly_payment - interest in
        if Qle_bool principal 0 then Some (raise (ValueError too_low_msg))
        else
          let remaining_balance := remaining_balance - principal in
          if (months >? 1000 * 12)%Z then Some (ret months)
          else depletion_loop fuel' monthly_interest_rate monthly_payment
                 remaining_balance months
    end
  else Some (ret months).

(** One pass of the body of [for m in range(1, total_months + 1)]; the
    state is [(remaining_balance, total_interest_paid)], both exact. *)
Definition interest_step (monthly_interest_rate monthly_payment : Q)
    (st : Q * Q) (m : Z) : Q * Q :=
  let '(remaining_balance, total_interest_paid) := st in
  let interest := remaining_balance * monthly_interest_rate in
  let principal := monthly_payment - interest in
  let total_interest_paid := total_interest_paid + interest in
  let remaining_balance := remaining_balance - principal in
  let remaining_balance :=
    if Qlt_bool remaining_balance 0 then 0 else remaining_balance in
  (remaining_balance, total_interest_paid).

Definition interest_loop (monthly_interest_rate monthly_payment loan_amount : Q)
    (total_months : Z) : Q * Q :=
  fold_left (interest_step monthly_interest_rate monthly_payment)
            (py_range 1 (total_months + 1)) (loan_amount, 0).

(** Everything after the three-way branch.  [months] is bound only when
    the [while] loop has run. *)
Definition amortization_summary (loan_amount monthly_interest_rate : Q)
    (loan_term : option Z) (monthly_payment : Q) (total_months : Z)
    (months : option Z) : result AmortizationResult :=
  total_months <-
    match loan_term with
    | None =>
        match months with
        | Some months => ret months
        | None => raise (UnboundLocalError "months")
        end
    | Some _ => ret total_months
    end ;;
  let total_interest_paid :=
    snd (interest_loop monthly_interest_rate monthly_payment loan_amount
           total_months) in
  let principal_first_month :=
    monthly_payment - loan_amount * monthly_interest_rate in
  initial_tilgung_rate <- py_div (principal_first_month * 12) loan_amount ;;
  ret (mkAmortizationResult monthly_payment total_interest_paid total_months
         initial_tilgung_rate).

Definition calculate_amortization_fuel (fuel : nat)
    (loan_amount annual_interest_rate : Q)
    (monthly_payment : option Q) (loan_term : option Z)
    : option (result AmortizationResult) :=
  let monthly_interest_rate := annual_interest_rate / 12 in
  match monthly_payment, loan_term with
  | None, Some term =>
      let total_months := (term * 12)%Z in
      Some (
        monthly_payment <-
          (if Qlt_bool 0 monthly_interest_rate then
             pw <- py_pow (1 + monthly_interest_rate) (- total_months) ;;
             py_div (monthly_interest_rate * loan_amount) (1 - pw)
           else py_div loan_amount (inject_Z total_months)) ;;
        amortization_summary loan_amount monthly_interest_rate loan_term
          monthly_payment total_months None)
  | Some monthly_payment, None =>
      match depletion_loop fuel monthly_interest_rate monthly_payment
              loan_amount 0 with
      | None => None
      | Some looped =>
          Some (
            months <- looped ;;
            let total_months := months in
            amortization_summary loan_amount monthly_interest_rate loan_term
              monthly_payment total_months (Some months))
      end
  | _, _ => Some (raise (ValueError exactly_one_msg))
  end.

(** The loop leaves at the latest when [months] passes [1000*12], so this
    much fuel is never used up (see [depletion_loop_total]). *)
Definition enough_fuel : nat := Z.to_nat (1000 * 12 + 1).

Definition calculate_amortization (loan_amount annual_interest_rate : Q)
    (monthly_payment : option Q) (loan_term : option Z)
    : option (result AmortizationResult) :=
  calculate_amortization_fuel enough_fuel loan_amount annual_interest_rate
    monthly_payment loan_term.

(** Balance after [k] passes of the body of the [while] loop started at
    balance [B], when neither the exception nor the [break] stops it. *)
Fixpoint balance_after (r M B : Q) (k : nat) : Q :=
  match k with
  | O => B
  | S k' => balance_after r M (B - (M - B * r)) k'
  end.

(** ** The three buy-versus-rent simulators *)

(** What [npf.pmt] and [npf.fv] compute on exact numbers when
    [when = 'end'] and, for [pmt], [fv = 0]: the formulas of the
    numpy-financial package, which is a dependency and not part of the
    repository.  The simulators below take the two functions as
    parameters; these two instances are used to run them. *)
Definition npf_pmt (rate : Q) (nper : Z) (pv : Q) : Q :=
  let temp := (1 + rate) ^ nper in
  let fact := if Qeq_bool rate 0 then inject_Z nper
              else (1 + rate * 0) * (temp - 1) / rate in
  - (0 + pv * temp) / fact.

Definition npf_fv (rate : Q) (nper : Z) (pmt pv : Q) : Q :=
  if Qeq_bool rate 0 then - (pv + pmt * inject_Z nper)
  else
    let temp := (1 + rate) ^ nper in
    - pv * temp - pmt * (1 + rate * 0) / rate * (temp - 1).

(** State of the loop of model 1. [sim1_monthly_savings] is [None] while
    the local [monthly_savings] is unbound. *)
Record Sim1State : Type := mkSim1State {
  sim1_buy_net_worth : list Q;
  sim1_rent_net_worth : list Q;
  sim1_invested_capital : Q;
  sim1_monthly_savings : option Q
}.

(** State of the loops of models 2 and 3. *)
Record PoolState : Type := mkPoolState {
  pool_buy_net_worth : list Q;
  pool_rent_net_worth : list Q;
  invested_capital_ETF : Q;
  invested_capital_savings : Q;
  invested_capital_total : Q
}.

(** [for month in range(months): body] as a fold over the months. *)
Definition for_range {S : Type} (months : Z) (body : Z -> S -> S) (init : S) : S :=
  fold_left (fun st month => body month st) (range months) init.

Section Simulators.

(** [npf.pmt(rate, nper, pv)] and [npf.fv(rate, nper, pmt, pv)]. *)
Variable pmt : Q -> Z -> Q -> Q.
Variable fv : Q -> Z -> Q -> Q -> Q.

Section Scenario.

Variables purchase_price down_payment refurbish nebenkost_rate
  maintenance_rate property_taxes initial_rent loan_interest_rate
  property_appreciation_rate rent_inflation_rate investment_return_rate : Q.
Variable loan_term : Z.

(** The prologue shared by the three functions. *)
Let inital_payment : Q := purchase_price * nebenkost_rate + refurbish.
Let loan_amount : Q := purchase_price - down_payment.
Let monthly_loan_interest_rate : Q := loan_interest_rate / 12.
Let years : Z := loan_term.
Let months : Z := (years * 12)%Z.
Let monthly_payment : Q :=
  pmt monthly_loan_interest_rate (loan_term * 12)%Z (- loan_amount).

(** model 1: everything in one pool *)
Definition buying_vs_renting_body (month : Z) (st : Sim1State) : Sim1State :=
  let monthly_property_value :=
    purchase_price * ((1 + property_appreciation_rate / 12) ^ month) in
  let monthly_maintenance := (purchase_price * maintenance_rate) / 12 in
  let monthly_taxes := property_taxes / 12 in
  let monthly_buying_cost :=
    monthly_payment + monthly_maintenance + monthly_taxes in
  let monthly_rent := initial_rent * ((1 + rent_inflation_rate / 12) ^ month) in
  let monthly_savings := monthly_buying_cost - monthly_rent in
  let invested_capital := sim1_invested_capital st + monthly_savings in
  let monthly_investment_return :=
    invested_capital * (investment_return_rate / 12) in
  let invested_capital := invested_capital + monthly_investment_return in
  let rent_net_worth := sim1_rent_net_worth st ++ [invested_capital] in
  let outstanding_balance :=
    fv monthly_loan_interest_rate (month + 1)%Z monthly_payment
       (- loan_amount) in
  let equity := monthly_property_value - outstanding_balance in
  let buy_cumulative_cash_flow := equity - inital_payment in
  let buy_net_worth := sim1_buy_net_worth st ++ [buy_cumulative_cash_flow] in
  mkSim1State buy_net_worth rent_net_worth invested_capital
    (Some monthly_savings).

Definition buying_vs_renting_init : Sim1State :=
  mkSim1State [] [] down_payment None.

Definition buying_vs_renting
  : result (list Q * list Q * list Z * Q) :=
  let st := for_range months buying_vs_renting_body buying_vs_renting_init in
  match sim1_monthly_savings st with
  | None => raise (UnboundLocalError "monthly_savings")
  | Some last_monthly_savings =>
      ret (sim1_buy_net_worth st, sim1_rent_net_worth st, range months,
           last_monthly_savings)
  end.

(** The body shared by models 2 and 3, which differ in the yearly
    rate [savings_rate] paid on the savings pool. *)
Definition pool_body (savings_rate : Q) (month : Z) (st : PoolState)
  : PoolState :=
  let monthly_property_value :=
    purchase_price * ((1 + property_appreciation_rate / 12) ^ month) in
  let monthly_maintenance := (purchase_price * maintenance_rate) / 12 in
  let monthly_taxes := property_taxes / 12 in
  let monthly_buying_cost :=
    monthly_payment + monthly_maintenance + monthly_taxes in
  let monthly_rent := initial_rent * ((1 + rent_inflation_rate / 12) ^ month) in
  let monthly_savings := monthly_buying_cost - monthly_rent in
  let invested_capital_ETF := invested_capital_ETF st + monthly_savings in
  let monthly_investment_return1 :=
    invested_capital_ETF * (investment_return_rate / 12) in
  let monthly_investment_return2 :=
    invested_capital_savings st * (savings_rate / 12) in
  let invested_capital_ETF :=
    invested_capital_ETF + monthly_investment_return1 in
  let invested_capital_savings :=
    invested_capital_savings st + monthly_investment_return2 in
  let invested_capital_total :=
    invested_capital_ETF + invested_capital_savings in
  let rent_net_worth := pool_rent_net_worth st ++ [invested_capital_total] in
  let outstanding_balance :=
    fv monthly_loan_interest_rate (month + 1)%Z monthly_payment
       (- loan_amount) in
  let equity := monthly_property_value - outstanding_balance in
  let buy_cumulative_cash_flow := equity - inital_payment in
  let buy_net_worth := pool_buy_net_worth st ++ [buy_cumulative_cash_flow] in
  mkPoolState buy_net_worth rent_net_worth invested_capital_ETF
    invested_capital_savings invested_capital_total.

(** model 2: 1/4 of the down payment to the ETF, 3/4 to savings *)
Definition buying_vs_renting2_rate : Q :=
  py_max (loan_interest_rate - 0.02) 0.

Definition buying_vs_renting2_init : PoolState :=
  let invested_capital_total := down_payment in
  mkPoolState [] [] (invested_capital_total * 1 / 4)
    (invested_capital_total * 3 / 4) invested_capital_total.

Definition buying_vs_renting2_body : Z -> PoolState -> PoolState :=
  pool_body buying_vs_renting2_rate.

Definition buying_vs_renting2 : list Q * list Q * list Z :=
  let st := for_range months buying_vs_renting2_body buying_vs_renting2_init in
  (pool_buy_net_worth st, pool_rent_net_worth st, range months).

(** model 3: 1/8 of the down payment to the ETF, 7/8 to savings *)
Definition buying_vs_renting3_rate : Q :=
  py_max (py_min (loan_interest_rate - 0.02) 0.01) 0.

Definition buying_vs_renting3_init : PoolState :=
  let invested_capital_total := down_payment in
  mkPoolState [] [] (invested_capital_total * 1 / 8)
    (invested_capital_total * 7 / 8) invested_capital_total.

Definition buying_vs_renting3_body : Z -> PoolState -> PoolState :=
  pool_body buying_vs_renting3_rate.

Definition buying_vs_renting3 : list Q * list Q * list Z :=
  let st := for_range months buying_vs_renting3_body buying_vs_renting3_init in
  (pool_buy_net_worth st, pool_rent_net_worth st, range months).

(** The monthly savings delta of month [month]: buying cost minus rent,
as the three loop bodies compute it. *)
Definition monthly_savings_at (month : Z) : Q :=
  monthly_payment + (purchase_price * maintenance_rate) / 12
  + property_taxes / 12
  - initial_rent * ((1 + rent_inflation_rate / 12) ^ month).

(** The loop states after [k] passes. *)
Definition sim1_state (k : nat) : Sim1State :=
  for_range (Z.of_nat k) buying_vs_renting_body buying_vs_renting_init.

Definition sim2_state (k : nat) : PoolState :=
  for_range (Z.of_nat k) buying_vs_renting2_body buying_vs_renting2_init.

Definition sim3_state (k : nat) : PoolState :=
  for_range (Z.of_nat k) buying_vs_renting3_body buying_vs_renting3_init.

End Scenario.

End Simulators.

(** The rent-side series of the outcome of model 1, and of models 2 and 3. *)
Definition rent_series1 (out : result (list Q * list Q * list Z * Q))
  : result (list Q) :=
  x <- out ;; ret (snd (fst (fst x))).

Definition rent_series (out : list Q * list Q * list Z) : list Q :=
  snd (fst out).

(** The part of a loop state the rent side is computed from. *)
Definition sim1_rent_side (st : Sim1State) : list Q * Q * option Q :=
  (sim1_rent_net_worth st, sim1_invested_capital st, sim1_monthly_savings st).

Definition pool_rent_side (st : PoolState) : list Q * Q * Q :=
  (pool_rent_net_worth st, invested_capital_ETF st, invested_capital_savings st).

(** The last entry of a series, if it has one. *)
Definition final_value (l : list Q) : option Q :=
  match rev l with
  | [] => None
  | x :: _ => Some x
  end.

(** ** Further code of the two source files *)

Section ScenarioSeries.

Variable pmt : Q -> Z -> Q -> Q.
Variable fv : Q -> Z -> Q -> Q -> Q.
Variables purchase_price down_payment refurbish nebenkost_rate
  maintenance_rate property_taxes initial_rent loan_interest_rate
  property_appreciation_rate rent_inflation_rate investment_return_rate : Q.
Variable loan_term : Z.

(** What the three loop bodies append to [buy_net_worth] in month
[month]: property value, minus outstanding balance, minus the payment
made up front. *)
Definition buy_net_worth_at (month : Z) : Q :=
  purchase_price * ((1 + property_appreciation_rate / 12) ^ month)
  - fv (loan_interest_rate / 12) (month + 1)%Z
       (pmt (loan_interest_rate / 12) (loan_term * 12)%Z
            (- (purchase_price - down_payment)))
       (- (purchase_price - down_payment))
  - (purchase_price * nebenkost_rate + refurbish).

(** [buying_vs_renting] of [src/.ipynb_checkpoints/dashapp-checkpoint.py]:
the loop of model 1, and a return that does not read [monthly_savings]. *)
Definition checkpoint_buying_vs_renting : list Q * list Q * list Z :=
  let months := (loan_term * 12)%Z in
  let st :=
    for_range months
      (buying_vs_renting_body pmt fv purchase_price down_payment refurbish
         nebenkost_rate maintenance_rate property_taxes initial_rent
         loan_interest_rate property_appreciation_rate rent_inflation_rate
         investment_return_rate loan_term)
      (buying_vs_renting_init down_payment) in
  (sim1_buy_net_worth st, sim1_rent_net_worth st, range months).

End ScenarioSeries.

(** The buy-side series and the month list of an outcome. *)
Definition buy_series (out : list Q * list Q * list Z) : list Q :=
  fst (fst out).

Definition months_list (out : list Q * list Q * list Z) : list Z := snd out.

Definition drop_savings (x : list Q * list Q * list Z * Q)
  : list Q * list Q * list Z := fst x.

Definition buy_series1 (out : result (list Q * list Q * list Z * Q))
  : result (list Q) :=
  x <- out ;; ret (buy_series (drop_savings x)).

(** [show_hide_inputs]: the styles of [monthly_payment_div] and
    [loan_term_div], each a dict with the one key ['display']. *)
Definition show_hide_inputs (scenario : string)
  : list (string * string) * list (string * string) :=
  if String.eqb scenario "monthly_payment_given"
  then ([("display", "block")], [("display", "none")])%string
  else ([("display", "none")], [("display", "block")])%string.

(** Lookup in a style dict. *)
Fixpoint style_get (key : string) (style : list (string * string))
  : option string :=
  match style with
  | [] => None
  | (k, v) :: rest => if String.eqb k key then Some v else style_get key rest
  end.

(** A callback either stops with [dash.exceptions.PreventUpdate], or
    fails with an exception of the function it calls, or returns. *)
Inductive callback_exn : Type :=
| PreventUpdate
| Raised (e : exn).

(** The loop of [update_plot1] over [terms]: one term-known solve for
    each term, the payments collected in order. *)
Fixpoint payment_sweep (loan_amount loan_interest_rate : Q) (terms : list Z)
    (payments : list Q) : option (result (list Q)) :=
  match terms with
  | [] => Some (ret payments)
  | t :: terms' =>
      match calculate_amortization loan_amount loan_interest_rate None
              (Some t) with
      | None => None
      | Some (inl e) => Some (raise e)
      | Some (inr r) =>
          payment_sweep loan_amount loan_interest_rate terms'
            (payments ++ [monthly_payment r])
      end
  end.

(** The values [update_plot1] computes before it draws: [result],
    [terms] and [payments].  The figure, the marker trace and the two
    texts built from them are left out.  An empty input field arrives as
    [None]. *)
Definition update_plot1_data (n_clicks : Z) (scenario : string)
    (loan_interest_rate purchase_price down_payment : Q)
    (monthly_payment_given : option Q) (loan_term_given : option Z)
    : option (callback_exn + AmortizationResult * list Z * list Q) :=
  if (n_clicks =? 0)%Z then Some (inl PreventUpdate)
  else
    let loan_amount := purchase_price - down_payment in
    match
      (if String.eqb scenario "monthly_payment_given"
       then calculate_amortization loan_amount loan_interest_rate
              monthly_payment_given None
       else calculate_amortization loan_amount loan_interest_rate
              None loan_term_given)
    with
    | None => None
    | Some (inl e) => Some (inl (Raised e))
    | Some (inr result) =>
        let terms := py_range 10 41 in
        match payment_sweep loan_amount loan_interest_rate terms [] with
        | None => None
        | Some (inl e) => Some (inl (Raised e))
        | Some (inr payments) => Some (inr (result, terms, payments))
        end
    end.

(** ** Basic facts about the runtime *)

Lemma Qlt_bool_iff (a b : Q) : Qlt_bool a b = true <-> a < b.
Proof.
  unfold Qlt_bool. rewrite negb_true_iff.
  destruct (Qle_bool b a) eqn:E.
  - apply Qle_bool_iff in E. split; [discriminate | intro H; lra].
  - split; [intros _ | reflexivity].
    destruct (Qlt_le_dec a b) as [L | L]; [exact L |].
    apply Qle_bool_iff in L. congruence.
Qed.

Lemma Qlt_bool_false_iff (a b : Q) : Qlt_bool a b = false <-> b <= a.
Proof.
  unfold Qlt_bool. rewrite negb_false_iff. apply Qle_bool_iff.
Qed.

Lemma Qle_bool_false_iff (a b : Q) : Qle_bool a b = false <-> b < a.
Proof.
  rewrite <- Qlt_bool_iff. unfold Qlt_bool.
  destruct (Qle_bool a b); simpl; intuition congruence.
Qed.

Lemma Qeq_bool_false_iff (a b : Q) : Qeq_bool a b = false <-> ~ a == b.
Proof.
  rewrite <- Qeq_bool_iff. destruct (Qeq_bool a b); intuition congruence.
Qed.

Lemma py_div_ok (a b : Q) : ~ b == 0 -> py_div a b = ret (a / b).
Proof.
  intro H. unfold py_div. apply Qeq_bool_false_iff in H. now rewrite H.
Qed.

Lemma py_div_zero (a b : Q) : b == 0 -> py_div a b = raise ZeroDivisionError.
Proof.
  intro H. unfold py_div. apply Qeq_bool_iff in H. now rewrite H.
Qed.

Lemma py_pow_ok (a : Q) (e : Z) : ~ a == 0 -> py_pow a e = ret (a ^ e).
Proof.
  intro H. unfold py_pow. apply Qeq_bool_false_iff in H. now rewrite H.
Qed.

Lemma py_div_cases (a b : Q) :
  py_div a b = raise ZeroDivisionError \/ py_div a b = ret (a / b).
Proof. unfold py_div. destruct (Qeq_bool b 0); auto. Qed.

Lemma py_pow_cases (a : Q) (e : Z) :
  py_pow a e = raise ZeroDivisionError \/ py_pow a e = ret (a ^ e).
Proof. unfold py_pow. destruct (Qeq_bool a 0 && (e <? 0)%Z); auto. Qed.

Lemma py_range_length (lo hi : Z) : List.length (py_range lo hi) = Z.to_nat (hi - lo).
Proof. unfold py_range. now rewrite length_map, length_seq. Qed.

Lemma py_range_empty (lo hi : Z) : (hi <= lo)%Z -> py_range lo hi = [].
Proof.
  intro H. unfold py_range.
  replace (Z.to_nat (hi - lo)) with 0%nat by lia. reflexivity.
Qed.

Lemma range_of_nat_succ (k : nat) :
  range (Z.of_nat (S k)) = range (Z.of_nat k) ++ [Z.of_nat k].
Proof.
  unfold range, py_range. rewrite !Z.sub_0_r, !Nat2Z.id.
  rewrite seq_S, map_app. reflexivity.
Qed.

(** A twelfth of a yearly rate, in the form [lra] reads. *)
Lemma Qdiv_12 (a : Q) : a / 12 == a * (1 # 12).
Proof. reflexivity. Qed.

Lemma Qdiv_4 (a : Q) : a / 4 == a * (1 # 4).
Proof. reflexivity. Qed.

Lemma Qdiv_8 (a : Q) : a / 8 == a * (1 # 8).
Proof. reflexivity. Qed.

Lemma monthly_rate_nonneg (a : Q) : 0 <= a -> 0 <= a / 12.
Proof. rewrite Qdiv_12. lra. Qed.

Lemma monthly_rate_pos (a : Q) : 0 < a -> 0 < a / 12.
Proof. rewrite Qdiv_12. lra. Qed.

Lemma monthly_rate_zero (a : Q) : a == 0 -> a / 12 == 0.
Proof. rewrite Qdiv_12. lra. Qed.

(** Powers with a natural exponent, the only ones the loops take. *)
Lemma Qpower_succ (q : Q) (k : nat) :
  q ^ Z.of_nat (S k) == q * q ^ Z.of_nat k.
Proof.
  rewrite Nat2Z.inj_succ. unfold Z.succ.
  destruct k as [| k].
  - simpl. ring.
  - rewrite Qpower_plus' by lia. simpl (q ^ 1). ring.
Qed.

Lemma Qpower_nat_nonneg (q : Q) (k : nat) : 0 <= q -> 0 <= q ^ Z.of_nat k.
Proof. intro H. now apply Qpower_0_le. Qed.

Lemma Qpower_nat_le_compat (p q : Q) (k : nat) :
  0 <= p -> p <= q -> p ^ Z.of_nat k <= q ^ Z.of_nat k.
Proof.
  intros Hp Hpq. induction k as [| k IH].
  - simpl. lra.
  - rewrite !Qpower_succ.
    pose proof (Qpower_nat_nonneg p k Hp) as Hk.
    apply Qle_trans with (q * p ^ Z.of_nat k).
    + apply Qmult_le_compat_r; assumption.
    + rewrite !(Qmult_comm q). apply Qmult_le_compat_r; [assumption | lra].
Qed.

(** ** The depletion loop of the payment-known branch *)

Lemma balance_after_succ (r M B : Q) (k : nat) :
  balance_after r M B (S k) =
  balance_after r M B k - (M - balance_after r M B k * r).
Proof.
  revert B. induction k as [| k IH]; intro B.
  - reflexivity.
  - change (balance_after r M B (S (S k)))
      with (balance_after r M (B - (M - B * r)) (S k)).
    rewrite IH. reflexivity.
Qed.

(** At rate zero the balance falls by the payment every month. *)
Lemma balance_after_zero_rate (r M B : Q) (k : nat) :
  r == 0 -> balance_after r M B k == B - inject_Z (Z.of_nat k) * M.
Proof.
  intro Hr. induction k as [| k IH].
  - simpl. ring.
  - rewrite balance_after_succ, IH, Nat2Z.inj_succ.
    unfold Z.succ. rewrite inject_Z_plus, Hr. ring.
Qed.

Lemma depletion_loop_stop (fuel : nat) (r M B : Q) (months : Z) :
  B <= 0 -> depletion_loop fuel r M B months = Some (ret months).
Proof.
  intro H. apply Qlt_bool_false_iff in H.
  destruct fuel; simpl; now rewrite H.
Qed.

Lemma depletion_loop_too_low (fuel : nat) (r M B : Q) (months : Z) :
  0 < B -> M - B * r <= 0 ->
  depletion_loop (S fuel) r M B months = Some (raise (ValueError too_low_msg)).
Proof.
  intros HB HM. apply Qlt_bool_iff in HB. apply Qle_bool_iff in HM.
  simpl. now rewrite HB, HM.
Qed.

Lemma depletion_loop_cap (fuel : nat) (r M B : Q) (months : Z) :
  0 < B -> 0 < M - B * r -> (1000 * 12 < months + 1)%Z ->
  depletion_loop (S fuel) r M B months = Some (ret (months + 1)%Z).
Proof.
  intros HB HM Hc. apply Qlt_bool_iff in HB. apply Qle_bool_false_iff in HM.
  simpl. rewrite HB, HM.
  replace (months + 1 >? 12000)%Z with true; [reflexivity |].
  symmetry. apply Z.gtb_lt. exact Hc.
Qed.

Lemma depletion_loop_continue (fuel : nat) (r M B : Q) (months : Z) :
  0 < B -> 0 < M - B * r -> (months + 1 <= 1000 * 12)%Z ->
  depletion_loop (S fuel) r M B months =
  depletion_loop fuel r M (B - (M - B * r)) (months + 1).
Proof.
  intros HB HM Hc. apply Qlt_bool_iff in HB. apply Qle_bool_false_iff in HM.
  simpl. rewrite HB, HM.
  replace (months + 1 >? 12000)%Z with false; [reflexivity |].
  symmetry. rewrite Z.gtb_ltb. apply Z.ltb_ge. exact Hc.
Qed.

(** While the balance is positive, the payment covers the interest and
    the cap is not reached, [j] passes of the loop take the balance to
    [balance_after j] and add [j] to the month counter. *)
Lemma depletion_loop_runs (r M : Q) (j : nat) :
  forall (fuel : nat) (B : Q) (months : Z),
    (forall i, (i < j)%nat ->
       0 < balance_after r M B i /\ 0 < M - balance_after r M B i * r) ->
    (months + Z.of_nat j <= 1000 * 12)%Z ->
    depletion_loop (j + fuel) r M B months =
    depletion_loop fuel r M (balance_after r M B j) (months + Z.of_nat j).
Proof.
  induction j as [| j IH]; intros fuel B months Hpos Hcap.
  - simpl. now rewrite Z.add_0_r.
  - destruct (Hpos 0%nat ltac:(lia)) as [HB HM]. simpl in HB, HM.
    change (S j + fuel)%nat with (S (j + fuel)).
    rewrite depletion_loop_continue by (assumption || lia).
    rewrite IH.
    + simpl balance_after. f_equal. lia.
    + intros i Hi. apply (Hpos (S i)). lia.
    + lia.
Qed.

(** The loop never needs more than [1000*12 + 1] passes. *)
Lemma depletion_loop_total (r M : Q) (fuel : nat) :
  forall (B : Q) (months : Z),
    (1 <= fuel)%nat -> (1000 * 12 + 1 - months <= Z.of_nat fuel)%Z ->
    exists res, depletion_loop fuel r M B months = Some res.
Proof.
  induction fuel as [| fuel IH]; intros B months H1 Hf; [lia |].
  simpl. destruct (Qlt_bool 0 B); [| eauto].
  destruct (Qle_bool (M - B * r) 0); [eauto |].
  destruct (months + 1 >? 12000)%Z eqn:E; [eauto |].
  rewrite Z.gtb_ltb in E. apply Z.ltb_ge in E.
  apply IH; lia.
Qed.

(** More fuel does not change a result. *)
Lemma depletion_loop_more_fuel (r M : Q) (fuel extra : nat) :
  forall (B : Q) (months : Z) (res : result Z),
    depletion_loop fuel r M B months = Some res ->
    depletion_loop (fuel + extra) r M B months = Some res.
Proof.
  induction fuel as [| fuel IH]; intros B months res H.
  - simpl in H. destruct (Qlt_bool 0 B) eqn:E; [discriminate |].
    apply Qlt_bool_false_iff in E. rewrite depletion_loop_stop; assumption.
  - simpl in *. destruct (Qlt_bool 0 B); [| assumption].
    destruct (Qle_bool (M - B * r) 0); [assumption |].
    destruct (months + 1 >? 12000)%Z; [assumption |].
    now apply IH.
Qed.

(** The only exception of the loop is the "too low" one, and the month
    count it returns lies between the start value and [1000*12 + 1]. *)
Lemma depletion_loop_result (r M : Q) (fuel : nat) :
  forall (B : Q) (months : Z) (res : result Z),
    (months <= 1000 * 12)%Z ->
    depletion_loop fuel r M B months = Some res ->
    res = raise (ValueError too_low_msg) \/
    exists m, res = ret m /\ (months <= m <= 1000 * 12 + 1)%Z.
Proof.
  induction fuel as [| fuel IH]; intros B months res Hm H.
  - simpl in H. destruct (Qlt_bool 0 B); [discriminate |].
    injection H as <-. right. exists months. split; [reflexivity | lia].
  - simpl in H. destruct (Qlt_bool 0 B).
    + destruct (Qle_bool (M - B * r) 0).
      * injection H as <-. now left.
      * destruct (months + 1 >? 12000)%Z eqn:E.
        -- injection H as <-. right. exists (months + 1)%Z.
           split; [reflexivity | lia].
        -- rewrite Z.gtb_ltb in E. apply Z.ltb_ge in E.
           apply IH in H; [| lia].
           destruct H as [-> | (m & -> & Hb)]; [now left |].
           right. exists m. split; [reflexivity | lia].
    + injection H as <-. right. exists months. split; [reflexivity | lia].
Qed.

Lemma depletion_loop_no_raise (r M : Q) (fuel : nat) :
  0 <= r ->
  forall (B : Q) (months : Z) (e : exn),
    0 < M - B * r ->
    depletion_loop fuel r M B months <> Some (raise e).
Proof.
  intro Hr. induction fuel as [| fuel IH]; intros B months e HM H.
  - simpl in H. destruct (Qlt_bool 0 B); discriminate.
  - simpl in H. destruct (Qlt_bool 0 B); [| discriminate].
    destruct (Qle_bool (M - B * r) 0) eqn:E.
    + apply Qle_bool_iff in E. lra.
    + destruct (months + 1 >? 12000)%Z; [discriminate |].
      apply IH in H; [exact H |].
      assert (Hs : M - (B - (M - B * r)) * r == (M - B * r) * (1 + r)) by ring.
      rewrite Hs. apply Qmult_lt_0_compat; lra.
Qed.

Lemma enough_fuel_succ : enough_fuel = S (Z.to_nat (1000 * 12)).
Proof. unfold enough_fuel. lia. Qed.

Lemma depletion_loop_enough (r M B : Q) (fuel : nat) (res : result Z) :
  (fuel <= enough_fuel)%nat ->
  depletion_loop fuel r M B 0 = Some res ->
  depletion_loop enough_fuel r M B 0 = Some res.
Proof.
  intros Hf H.
  replace enough_fuel with (fuel + (enough_fuel - fuel))%nat by lia.
  now apply depletion_loop_more_fuel.
Qed.

Lemma depletion_loop_beyond (r M B : Q) (fuel : nat) (res : result Z) :
  (enough_fuel <= fuel)%nat ->
  depletion_loop enough_fuel r M B 0 = Some res ->
  depletion_loop fuel r M B 0 = Some res.
Proof.
  intros Hf H.
  replace fuel with (enough_fuel + (fuel - enough_fuel))%nat by lia.
  now apply depletion_loop_more_fuel.
Qed.

(** With the balance positive and the interest covered through pass
    [1000*12 + 1], the loop leaves through its [break] with
    [months = 1000*12 + 1]. *)
Lemma depletion_loop_hits_cap (r M B : Q) :
  (forall k, (Z.of_nat k <= 1000 * 12)%Z ->
     0 < balance_after r M B k /\ 0 < M - balance_after r M B k * r) ->
  depletion_loop enough_fuel r M B 0 = Some (ret (1000 * 12 + 1)%Z).
Proof.
  intro Hpos.
  replace enough_fuel with (Z.to_nat (1000 * 12) + 1)%nat
    by (rewrite enough_fuel_succ; lia).
  rewrite depletion_loop_runs.
  - destruct (Hpos (Z.to_nat (1000 * 12))) as [HB HM]; [lia |].
    replace (0 + Z.of_nat (Z.to_nat (1000 * 12)))%Z with (1000 * 12)%Z by lia.
    now rewrite depletion_loop_cap by (assumption || lia).
  - intros i Hi. apply Hpos. lia.
  - lia.
Qed.

(** ** The function as a whole *)

Lemma too_low_is_not_exactly_one : too_low_msg <> exactly_one_msg.
Proof. unfold too_low_msg, exactly_one_msg. discriminate. Qed.

Lemma amortization_summary_ok (P r : Q) (lt : option Z) (M : Q) (tm m : Z) :
  ~ P == 0 ->
  amortization_summary P r lt M tm
    (match lt with None => Some m | Some _ => None end) =
  let tm' := match lt with None => m | Some _ => tm end in
  ret (mkAmortizationResult M (snd (interest_loop r M P tm')) tm'
         ((M - P * r) * 12 / P)).
Proof.
  intro HP. unfold amortization_summary.
  destruct lt; unfold bind at 1, ret at 1; now rewrite py_div_ok.
Qed.

Lemma amortization_summary_cases (P r : Q) (lt : option Z) (M : Q) (tm m : Z) :
  let out := amortization_summary P r lt M tm
               (match lt with None => Some m | Some _ => None end) in
  out = raise ZeroDivisionError \/ exists res, out = ret res.
Proof.
  unfold amortization_summary.
  destruct lt; unfold bind at 1, ret at 1;
    destruct (py_div_cases ((M - P * r) * 12) P) as [-> | ->]; simpl; eauto.
Qed.

Lemma payment_known_fuel (fuel : nat) (P rate M : Q) (m : Z) :
  ~ P == 0 ->
  depletion_loop fuel (rate / 12) M P 0 = Some (ret m) ->
  calculate_amortization_fuel fuel P rate (Some M) None =
  Some (ret (mkAmortizationResult M (snd (interest_loop (rate / 12) M P m)) m
               ((M - P * (rate / 12)) * 12 / P))).
Proof.
  intros HP H. unfold calculate_amortization_fuel. rewrite H.
  unfold bind at 1, ret at 1.
  now rewrite (amortization_summary_ok _ _ None _ _ m HP).
Qed.

Lemma payment_known (P rate M : Q) (m : Z) :
  ~ P == 0 ->
  depletion_loop enough_fuel (rate / 12) M P 0 = Some (ret m) ->
  calculate_amortization P rate (Some M) None =
  Some (ret (mkAmortizationResult M (snd (interest_loop (rate / 12) M P m)) m
               ((M - P * (rate / 12)) * 12 / P))).
Proof. apply payment_known_fuel. Qed.

Lemma payment_known_raises (fuel : nat) (P rate M : Q) (e : exn) :
  depletion_loop fuel (rate / 12) M P 0 = Some (raise e) ->
  calculate_amortization_fuel fuel P rate (Some M) None = Some (raise e).
Proof.
  intro H. unfold calculate_amortization_fuel. now rewrite H.
Qed.

(** ** Claims about calculate_amortization *)

(** C2. [calculate_amortization] raises the ValueError "Provide exactly
    one of (monthly_payment or loan_term)." exactly when both of
    [monthly_payment] and [loan_term] are given or neither is; with
    exactly one of them given, whatever else happens, that exception is
    not the outcome. *)
Theorem exactly_one_error_iff (loan_amount annual_interest_rate : Q)
    (monthly_payment : option Q) (loan_term : option Z) :
  calculate_amortization loan_amount annual_interest_rate monthly_payment
    loan_term = Some (raise (ValueError exactly_one_msg))
  <->
  (monthly_payment = None /\ loan_term = None) \/
  (exists M T, monthly_payment = Some M /\ loan_term = Some T).
Proof.
  destruct monthly_payment as [M |], loan_term as [T |].
  - split; [intros _; right; eauto | reflexivity].
  - split.
    + unfold calculate_amortization, calculate_amortization_fuel.
      destruct (depletion_loop _ _ _ _ _) as [res |] eqn:E; [| discriminate].
      apply depletion_loop_result in E; [| lia].
      destruct E as [-> | (m & -> & _)].
      * intro H. exfalso. apply too_low_is_not_exactly_one.
        unfold bind, raise in H. congruence.
      * unfold bind at 1, ret at 1.
        destruct (amortization_summary_cases loan_amount
                    (annual_interest_rate / 12) None M m m)
          as [-> | [res ->]]; discriminate.
    + intros [[H _] | (M' & T' & _ & H)]; discriminate.
  - split.
    + unfold calculate_amortization, calculate_amortization_fuel.
      set (r := annual_interest_rate / 12).
      destruct (Qlt_bool 0 r).
      * destruct (py_pow_cases (1 + r) (- (T * 12))) as [-> | ->];
          [discriminate |].
        unfold bind at 2. unfold ret at 1.
        destruct (py_div_cases (r * loan_amount) (1 - (1 + r) ^ (- (T * 12))))
          as [-> | ->]; [discriminate |].
        unfold bind at 1, ret at 1.
        destruct (amortization_summary_cases loan_amount r (Some T)
                    (r * loan_amount / (1 - (1 + r) ^ (- (T * 12))))
                    (T * 12) 0) as [-> | [res ->]]; discriminate.
      * destruct (py_div_cases loan_amount (inject_Z (T * 12))) as [-> | ->];
          [discriminate |].
        unfold bind at 1, ret at 1.
        destruct (amortization_summary_cases loan_amount r (Some T)
                    (loan_amount / inject_Z (T * 12)) (T * 12) 0)
          as [-> | [res ->]]; discriminate.
    + intros [[_ H] | (M' & T' & H & _)]; discriminate.
  - split; [intros _; left; auto | reflexivity].
Qed.

(** C5 (as the code has it). The payment-known solve always terminates:
    the fuel [enough_fuel] gives an outcome and more fuel gives the same
    one.  A returned [total_months] lies between 0 and [1000*12 + 1]: the
    [break] is taken in the first pass in which [months] is greater than
    [1000*12].  When the balance is still positive and the interest still
    covered in every pass up to that one, the call does not fail and
    returns [total_months = 1000*12 + 1]. *)
Theorem payment_known_terminates (loan_amount annual_interest_rate M : Q) :
  exists out,
    calculate_amortization loan_amount annual_interest_rate (Some M) None
      = Some out /\
    (forall fuel, (enough_fuel <= fuel)%nat ->
       calculate_amortization_fuel fuel loan_amount annual_interest_rate
         (Some M) None = Some out) /\
    (forall res, out = ret res -> (0 <= total_months res <= 1000 * 12 + 1)%Z) /\
    ((forall k, (Z.of_nat k <= 1000 * 12)%Z ->
        0 < balance_after (annual_interest_rate / 12) M loan_amount k /\
        0 < M - balance_after (annual_interest_rate / 12) M loan_amount k
                * (annual_interest_rate / 12)) ->
     exists res, out = ret res /\ total_months res = (1000 * 12 + 1)%Z).
Proof.
  set (r := annual_interest_rate / 12).
  destruct (depletion_loop_total r M enough_fuel loan_amount 0)
    as [looped E]; [rewrite enough_fuel_succ; lia .. |].
  exists (months <- looped ;;
          amortization_summary loan_amount r None M months (Some months)).
  split; [| split; [| split]].
  - unfold calculate_amortization, calculate_amortization_fuel.
    fold r. now rewrite E.
  - intros fuel Hf. unfold calculate_amortization_fuel. fold r.
    now rewrite (depletion_loop_beyond _ _ _ _ _ Hf E).
  - intros res Hres.
    apply depletion_loop_result in E; [| lia].
    destruct E as [-> | (m & -> & Hm)]; [discriminate |].
    unfold amortization_summary in Hres. unfold bind at 1 2, ret at 1 2 in Hres.
    destruct (py_div_cases ((M - loan_amount * r) * 12) loan_amount)
      as [Hd | Hd]; rewrite Hd in Hres; [discriminate |].
    injection Hres as <-. simpl. lia.
  - intro Hpos.
    pose proof (depletion_loop_hits_cap r M loan_amount Hpos) as Hcap.
    rewrite Hcap in E. injection E as <-.
    destruct (Hpos 0%nat ltac:(lia)) as [HP _]. simpl in HP.
    assert (HP0 : ~ loan_amount == 0) by lra.
    unfold bind at 1, ret at 1.
    rewrite (amortization_summary_ok _ _ None _ _ _ HP0).
    eexists. split; reflexivity.
Qed.

(** C10. For a negative loan amount and any payment (term absent) the
    [while] loop makes no pass at all (it is done with no fuel), and the
    call returns with [total_months = 0] and [total_interest_paid = 0]:
    neither ValueError is raised. *)
Theorem negative_loan_amount (loan_amount annual_interest_rate M : Q) :
  loan_amount < 0 ->
  depletion_loop 0 (annual_interest_rate / 12) M loan_amount 0
    = Some (ret 0%Z) /\
  exists res,
    calculate_amortization loan_amount annual_interest_rate (Some M) None
      = Some (ret res) /\
    total_months res = 0%Z /\ total_interest_paid res == 0.
Proof.
  intro HP. split.
  - apply depletion_loop_stop. lra.
  - eexists. split; [| split].
    + apply payment_known; [lra |]. apply depletion_loop_stop. lra.
    + reflexivity.
    + simpl. reflexivity.
Qed.

(** ** The term-known branch and the annuity payment *)

Lemma annuity_discount (r : Q) (n : Z) :
  0 < r -> (0 < n)%Z -> 0 < (1 + r) ^ (- n) /\ (1 + r) ^ (- n) < 1.
Proof.
  intros Hr Hn. split.
  - apply Qpower_0_lt. lra.
  - rewrite Qpower_opp.
    assert (HX : 1 < (1 + r) ^ n) by (apply Qpower_1_lt; [lra | exact Hn]).
    apply (proj1 (Qinv_lt_contravar 1 ((1 + r) ^ n) ltac:(lra) ltac:(lra))) in HX.
    exact HX.
Qed.

Lemma term_known_positive_rate (P rate : Q) (T : Z) :
  0 < rate / 12 -> ~ P == 0 -> (1 <= T)%Z ->
  calculate_amortization P rate None (Some T) =
  let r := rate / 12 in
  let M := r * P / (1 - (1 + r) ^ (- (T * 12))) in
  Some (ret (mkAmortizationResult M (snd (interest_loop r M P (T * 12)))
               (T * 12) ((M - P * r) * 12 / P))).
Proof.
  intros Hr HP HT.
  unfold calculate_amortization, calculate_amortization_fuel.
  set (r := rate / 12) in *.
  destruct (annuity_discount r (T * 12) Hr ltac:(lia)) as [Hd0 Hd1].
  apply Qlt_bool_iff in Hr. rewrite Hr. apply Qlt_bool_iff in Hr.
  rewrite py_pow_ok by lra. unfold bind at 2. unfold ret at 1.
  rewrite py_div_ok by lra. unfold bind at 1. unfold ret at 1.
  now rewrite (amortization_summary_ok _ _ (Some T) _ _ 0 HP).
Qed.

Lemma term_known_zero_rate (P rate : Q) (T : Z) :
  rate / 12 <= 0 -> ~ P == 0 -> (1 <= T)%Z ->
  calculate_amortization P rate None (Some T) =
  let r := rate / 12 in
  let M := P / inject_Z (T * 12) in
  Some (ret (mkAmortizationResult M (snd (interest_loop r M P (T * 12)))
               (T * 12) ((M - P * r) * 12 / P))).
Proof.
  intros Hr HP HT.
  unfold calculate_amortization, calculate_amortization_fuel.
  set (r := rate / 12) in *.
  apply Qlt_bool_false_iff in Hr. rewrite Hr.
  assert (HN : ~ inject_Z (T * 12) == 0).
  { change 0 with (inject_Z 0). rewrite inject_Z_injective. lia. }
  rewrite py_div_ok by exact HN. unfold bind at 1. unfold ret at 1.
  now rewrite (amortization_summary_ok _ _ (Some T) _ _ 0 HP).
Qed.

(** At rate zero no interest is ever added up. *)
Lemma interest_loop_zero_rate (r M : Q) (l : list Z) :
  r == 0 ->
  forall st, snd st == 0 -> snd (fold_left (interest_step r M) l st) == 0.
Proof.
  intro Hr. induction l as [| m l IH]; intros [B ti] Hst.
  - exact Hst.
  - simpl fold_left. apply IH. simpl in *. rewrite Hst, Hr. ring.
Qed.

(** ** Claims about the term-known branch *)

(** C6. With rate zero, a positive loan amount and a term of at least one
    year, the call returns [monthly_payment = P / (12*T)] and
    [total_interest_paid = 0]. *)
Theorem zero_rate_case (P rate : Q) (T : Z) :
  0 < P -> (1 <= T)%Z -> rate == 0 ->
  exists res,
    calculate_amortization P rate None (Some T) = Some (ret res) /\
    monthly_payment res == P / inject_Z (12 * T) /\
    total_interest_paid res == 0.
Proof.
  intros HP HT Hrate.
  pose proof (monthly_rate_zero rate Hrate) as Hr.
  eexists. split; [| split].
  - apply term_known_zero_rate; [lra | lra | exact HT].
  - simpl. now rewrite (Z.mul_comm T 12).
  - cbv zeta. unfold total_interest_paid, interest_loop.
    apply interest_loop_zero_rate; [exact Hr | reflexivity].
Qed.

(** ** The loop at rate zero, and the cap *)

Lemma zero_rate_principal (r M b : Q) : r == 0 -> M - b * r == M.
Proof. intro H. rewrite H. ring. Qed.

(** At rate zero, a payment that does not clear the balance in [1000*12]
    months runs the loop into its [break]. *)
Lemma zero_rate_hits_cap (r M B : Q) :
  r == 0 -> 0 < M -> inject_Z (1000 * 12) * M < B ->
  depletion_loop enough_fuel r M B 0 = Some (ret (1000 * 12 + 1)%Z).
Proof.
  intros Hr HM HB. apply depletion_loop_hits_cap. intros k Hk.
  rewrite Zle_Qle in Hk.
  pose proof (balance_after_zero_rate r M B k Hr) as Hb.
  split.
  - rewrite Hb. nra.
  - now rewrite zero_rate_principal.
Qed.

(** C5, the claim as stated fails: a loan of 12024 at rate zero with a
    monthly payment of 1 returns [total_months = 12001]. *)
Lemma total_months_exceeds_cap :
  exists res,
    calculate_amortization 12024 0 (Some 1) None = Some (ret res) /\
    (1000 * 12 < total_months res)%Z.
Proof.
  eexists. split.
  - apply payment_known; [lra |].
    apply zero_rate_hits_cap; [reflexivity | reflexivity | reflexivity].
  - cbn [total_months]. lia.
Qed.


(** ** The simulator loops *)

Lemma for_range_succ {S : Type} (body : Z -> S -> S) (init : S) (k : nat) :
  for_range (Z.of_nat (Datatypes.S k)) body init =
  body (Z.of_nat k) (for_range (Z.of_nat k) body init).
Proof.
  unfold for_range. rewrite range_of_nat_succ, fold_left_app. reflexivity.
Qed.

Lemma for_range_to_nat {S : Type} (months : Z) (body : Z -> S -> S) (init : S) :
  for_range months body init =
  for_range (Z.of_nat (Z.to_nat months)) body init.
Proof.
  unfold for_range, range, py_range. now rewrite !Z.sub_0_r, Nat2Z.id.
Qed.

(** Two folds over the same list keep a relation that every step keeps. *)
Lemma fold_left_related {S S' A : Type} (R : S -> S' -> Prop)
    (f : S -> A -> S) (g : S' -> A -> S') :
  (forall a s s', R s s' -> R (f s a) (g s' a)) ->
  forall l s s', R s s' -> R (fold_left f l s) (fold_left g l s').
Proof.
  intros Hstep l. induction l as [| a l IH]; intros s s' H.
  - exact H.
  - simpl. apply IH. now apply Hstep.
Qed.

(** A list that grows by one entry [g k] in pass [k] is [g] mapped over
    the passes. *)
Lemma log_as_map (f : nat -> list Q) (g : nat -> Q) :
  f 0%nat = [] -> (forall k, f (S k) = f k ++ [g k]) ->
  forall n, f n = map g (seq 0 n).
Proof.
  intros H0 HS. induction n as [| n IH].
  - exact H0.
  - rewrite HS, IH, seq_S, map_app. reflexivity.
Qed.

Lemma final_value_map_seq (g : nat -> Q) (n : nat) :
  final_value (map g (seq 0 (S n))) = Some (g n).
Proof.
  unfold final_value. rewrite seq_S, map_app, rev_app_distr. reflexivity.
Qed.

Lemma nth_error_map_seq (g : nat -> Q) (n k : nat) :
  (k < n)%nat -> nth_error (map g (seq 0 n)) k = Some (g k).
Proof.
  intro H. rewrite nth_error_map, nth_error_seq.
  destruct (Nat.ltb_spec k n); [reflexivity | lia].
Qed.

Lemma py_max_lower (a b : Q) : b <= py_max a b.
Proof.
  unfold py_max. destruct (Qlt_bool a b) eqn:E; [lra |].
  now apply Qlt_bool_false_iff in E.
Qed.

Lemma py_max_min_le (x c : Q) : py_max (py_min x c) 0 <= py_max x 0.
Proof.
  unfold py_max, py_min.
  destruct (Qlt_bool c x) eqn:E1.
  - apply Qlt_bool_iff in E1.
    destruct (Qlt_bool c 0) eqn:E2, (Qlt_bool x 0) eqn:E3;
      try apply Qlt_bool_iff in E2; try apply Qlt_bool_false_iff in E2;
      try apply Qlt_bool_iff in E3; try apply Qlt_bool_false_iff in E3; lra.
  - destruct (Qlt_bool x 0); lra.
Qed.

Section SimulatorFacts.

Variable pmt : Q -> Z -> Q -> Q.
Variable fv : Q -> Z -> Q -> Q -> Q.
Variables purchase_price down_payment refurbish nebenkost_rate
  maintenance_rate property_taxes initial_rent loan_interest_rate
  property_appreciation_rate rent_inflation_rate investment_return_rate : Q.
Variable loan_term : Z.

Local Abbreviation run1 :=
  (buying_vs_renting pmt fv purchase_price down_payment refurbish
     nebenkost_rate maintenance_rate property_taxes initial_rent
     loan_interest_rate property_appreciation_rate rent_inflation_rate
     investment_return_rate loan_term).
Local Abbreviation run2 :=
  (buying_vs_renting2 pmt fv purchase_price down_payment refurbish
     nebenkost_rate maintenance_rate property_taxes initial_rent
     loan_interest_rate property_appreciation_rate rent_inflation_rate
     investment_return_rate loan_term).
Local Abbreviation run3 :=
  (buying_vs_renting3 pmt fv purchase_price down_payment refurbish
     nebenkost_rate maintenance_rate property_taxes initial_rent
     loan_interest_rate property_appreciation_rate rent_inflation_rate
     investment_return_rate loan_term).
Local Abbreviation st1 :=
  (sim1_state pmt fv purchase_price down_payment refurbish
     nebenkost_rate maintenance_rate property_taxes initial_rent
     loan_interest_rate property_appreciation_rate rent_inflation_rate
     investment_return_rate loan_term).
Local Abbreviation st2 :=
  (sim2_state pmt fv purchase_price down_payment refurbish
     nebenkost_rate maintenance_rate property_taxes initial_rent
     loan_interest_rate property_appreciation_rate rent_inflation_rate
     investment_return_rate loan_term).
Local Abbreviation st3 :=
  (sim3_state pmt fv purchase_price down_payment refurbish
     nebenkost_rate maintenance_rate property_taxes initial_rent
     loan_interest_rate property_appreciation_rate rent_inflation_rate
     investment_return_rate loan_term).
Local Abbreviation savings k :=
  (monthly_savings_at pmt purchase_price down_payment maintenance_rate
     property_taxes initial_rent loan_interest_rate rent_inflation_rate
     loan_term (Z.of_nat k)).
Local Abbreviation i := (investment_return_rate / 12).
Local Abbreviation rate2 := (buying_vs_renting2_rate loan_interest_rate).
Local Abbreviation rate3 := (buying_vs_renting3_rate loan_interest_rate).
Local Abbreviation months := (Z.to_nat (loan_term * 12)).

(** One pass of each loop. *)
Lemma sim1_step (k : nat) :
  sim1_invested_capital (st1 (S k)) =
    (sim1_invested_capital (st1 k) + savings k)
    + (sim1_invested_capital (st1 k) + savings k) * i /\
  sim1_rent_net_worth (st1 (S k)) =
    sim1_rent_net_worth (st1 k) ++ [sim1_invested_capital (st1 (S k))] /\
  sim1_monthly_savings (st1 (S k)) = Some (savings k).
Proof.
  unfold sim1_state. rewrite for_range_succ. repeat split; reflexivity.
Qed.

Lemma sim2_step (k : nat) :
  invested_capital_ETF (st2 (S k)) =
    (invested_capital_ETF (st2 k) + savings k)
    + (invested_capital_ETF (st2 k) + savings k) * i /\
  invested_capital_savings (st2 (S k)) =
    invested_capital_savings (st2 k)
    + invested_capital_savings (st2 k) * (rate2 / 12) /\
  pool_rent_net_worth (st2 (S k)) =
    pool_rent_net_worth (st2 k)
    ++ [invested_capital_ETF (st2 (S k))
        + invested_capital_savings (st2 (S k))].
Proof.
  unfold sim2_state. rewrite for_range_succ. repeat split; reflexivity.
Qed.

Lemma sim3_step (k : nat) :
  invested_capital_ETF (st3 (S k)) =
    (invested_capital_ETF (st3 k) + savings k)
    + (invested_capital_ETF (st3 k) + savings k) * i /\
  invested_capital_savings (st3 (S k)) =
    invested_capital_savings (st3 k)
    + invested_capital_savings (st3 k) * (rate3 / 12) /\
  pool_rent_net_worth (st3 (S k)) =
    pool_rent_net_worth (st3 k)
    ++ [invested_capital_ETF (st3 (S k))
        + invested_capital_savings (st3 (S k))].
Proof.
  unfold sim3_state. rewrite for_range_succ. repeat split; reflexivity.
Qed.

(** The rent series after [n] passes. *)
Lemma sim1_rent_log (n : nat) :
  sim1_rent_net_worth (st1 n) =
  map (fun k => sim1_invested_capital (st1 (S k))) (seq 0 n).
Proof.
  apply (log_as_map (fun n => sim1_rent_net_worth (st1 n))).
  - reflexivity.
  - intro k. apply sim1_step.
Qed.

Lemma sim2_rent_log (n : nat) :
  pool_rent_net_worth (st2 n) =
  map (fun k => invested_capital_ETF (st2 (S k))
                + invested_capital_savings (st2 (S k))) (seq 0 n).
Proof.
  apply (log_as_map (fun n => pool_rent_net_worth (st2 n))).
  - reflexivity.
  - intro k. apply sim2_step.
Qed.

Lemma sim3_rent_log (n : nat) :
  pool_rent_net_worth (st3 n) =
  map (fun k => invested_capital_ETF (st3 (S k))
                + invested_capital_savings (st3 (S k))) (seq 0 n).
Proof.
  apply (log_as_map (fun n => pool_rent_net_worth (st3 n))).
  - reflexivity.
  - intro k. apply sim3_step.
Qed.

(** What the three functions return, in terms of the loop states. *)
Lemma run1_returns :
  (1 <= loan_term)%Z ->
  run1 = ret (sim1_buy_net_worth (st1 months), sim1_rent_net_worth (st1 months),
              range (loan_term * 12), savings (Nat.pred months)).
Proof.
  intro HT. unfold buying_vs_renting. cbv zeta.
  rewrite for_range_to_nat.
  destruct months as [| n] eqn:E; [lia |].
  destruct (sim1_step n) as (_ & _ & H). unfold sim1_state in *.
  rewrite H. reflexivity.
Qed.

Lemma run2_rent : rent_series run2 = pool_rent_net_worth (st2 months).
Proof.
  unfold buying_vs_renting2, rent_series. cbv zeta.
  now rewrite for_range_to_nat.
Qed.

Lemma run3_rent : rent_series run3 = pool_rent_net_worth (st3 months).
Proof.
  unfold buying_vs_renting3, rent_series. cbv zeta.
  now rewrite for_range_to_nat.
Qed.

(** The savings pools only compound. *)
Lemma sim2_savings_closed (m : nat) :
  invested_capital_savings (st2 m)
  == down_payment * 3 / 4 * (1 + rate2 / 12) ^ Z.of_nat m.
Proof.
  induction m as [| m IH].
  - simpl. ring.
  - destruct (sim2_step m) as (_ & -> & _).
    rewrite IH, Qpower_succ. ring.
Qed.

Lemma sim3_savings_closed (m : nat) :
  invested_capital_savings (st3 m)
  == down_payment * 7 / 8 * (1 + rate3 / 12) ^ Z.of_nat m.
Proof.
  induction m as [| m IH].
  - simpl. ring.
  - destruct (sim3_step m) as (_ & -> & _).
    rewrite IH, Qpower_succ. ring.
Qed.

(** The growth pools of the three models differ by the compounded
    difference of their shares of the down payment. *)
Lemma growth_gap_12 (k : nat) :
  sim1_invested_capital (st1 k)
  == invested_capital_ETF (st2 k)
     + (3 # 4) * down_payment * (1 + i) ^ Z.of_nat k.
Proof.
  induction k as [| k IH].
  - simpl. field.
  - destruct (sim1_step k) as (-> & _ & _).
    destruct (sim2_step k) as (-> & _ & _).
    rewrite IH, Qpower_succ. ring.
Qed.

Lemma growth_gap_23 (k : nat) :
  invested_capital_ETF (st2 k)
  == invested_capital_ETF (st3 k)
     + (1 # 8) * down_payment * (1 + i) ^ Z.of_nat k.
Proof.
  induction k as [| k IH].
  - simpl. field.
  - destruct (sim2_step k) as (-> & _ & _).
    destruct (sim3_step k) as (-> & _ & _).
    rewrite IH, Qpower_succ. ring.
Qed.

(** After any number of passes the totals are ordered. *)
Lemma totals_ordered (k : nat) :
  0 <= down_payment -> rate2 < investment_return_rate ->
  invested_capital_ETF (st3 k) + invested_capital_savings (st3 k)
  <= invested_capital_ETF (st2 k) + invested_capital_savings (st2 k) /\
  invested_capital_ETF (st2 k) + invested_capital_savings (st2 k)
  <= sim1_invested_capital (st1 k).
Proof.
  intros Hdp Hrate.
  assert (H3 : 0 <= rate3) by apply py_max_lower.
  assert (H32 : rate3 <= rate2) by apply py_max_min_le.
  set (A := (1 + i) ^ Z.of_nat k).
  set (B := (1 + rate2 / 12) ^ Z.of_nat k).
  set (C := (1 + rate3 / 12) ^ Z.of_nat k).
  assert (HC : 0 <= C)
    by (apply Qpower_nat_nonneg; rewrite Qdiv_12; lra).
  assert (HCB : C <= B)
    by (apply Qpower_nat_le_compat; rewrite !Qdiv_12; lra).
  assert (HBA : B <= A)
    by (apply Qpower_nat_le_compat; rewrite !Qdiv_12; lra).
  assert (HdC : 0 <= down_payment * C) by (apply Qmult_le_0_compat; lra).
  assert (HdCB : down_payment * C <= down_payment * B)
    by (rewrite !(Qmult_comm down_payment); apply Qmult_le_compat_r; lra).
  assert (HdBA : down_payment * B <= down_payment * A)
    by (rewrite !(Qmult_comm down_payment); apply Qmult_le_compat_r; lra).
  pose proof (growth_gap_12 k) as G12. fold A in G12.
  pose proof (growth_gap_23 k) as G23. fold A in G23.
  pose proof (sim2_savings_closed k) as S2. fold B in S2.
  pose proof (sim3_savings_closed k) as S3. fold C in S3.
  rewrite Qdiv_4 in S2. rewrite Qdiv_8 in S3.
  split; lra.
Qed.

(** ** Claims about the simulators *)



Variables refurbish' nebenkost_rate' property_appreciation_rate' : Q.

Local Abbreviation run1' :=
  (buying_vs_renting pmt fv purchase_price down_payment refurbish'
     nebenkost_rate' maintenance_rate property_taxes initial_rent
     loan_interest_rate property_appreciation_rate' rent_inflation_rate
     investment_return_rate loan_term).
Local Abbreviation run2' :=
  (buying_vs_renting2 pmt fv purchase_price down_payment refurbish'
     nebenkost_rate' maintenance_rate property_taxes initial_rent
     loan_interest_rate property_appreciation_rate' rent_inflation_rate
     investment_return_rate loan_term).
Local Abbreviation run3' :=
  (buying_vs_renting3 pmt fv purchase_price down_payment refurbish'
     nebenkost_rate' maintenance_rate property_taxes initial_rent
     loan_interest_rate property_appreciation_rate' rent_inflation_rate
     investment_return_rate loan_term).

(** The rent side of a pass does not read the three buy-side parameters. *)
Lemma body1_rent_side (month : Z) (st st' : Sim1State) :
  sim1_rent_side st = sim1_rent_side st' ->
  sim1_rent_side
    (buying_vs_renting_body pmt fv purchase_price down_payment refurbish
       nebenkost_rate maintenance_rate property_taxes initial_rent
       loan_interest_rate property_appreciation_rate rent_inflation_rate
       investment_return_rate loan_term month st) =
  sim1_rent_side
    (buying_vs_renting_body pmt fv purchase_price down_payment refurbish'
       nebenkost_rate' maintenance_rate property_taxes initial_rent
       loan_interest_rate property_appreciation_rate' rent_inflation_rate
       investment_return_rate loan_term month st').
Proof.
  unfold sim1_rent_side. intros [= Hr Hi _]. simpl. now rewrite Hr, Hi.
Qed.

Lemma pool_body_rent_side (rate : Q) (month : Z) (st st' : PoolState) :
  pool_rent_side st = pool_rent_side st' ->
  pool_rent_side
    (pool_body pmt fv purchase_price down_payment refurbish
       nebenkost_rate maintenance_rate property_taxes initial_rent
       loan_interest_rate property_appreciation_rate rent_inflation_rate
       investment_return_rate loan_term rate month st) =
  pool_rent_side
    (pool_body pmt fv purchase_price down_payment refurbish'
       nebenkost_rate' maintenance_rate property_taxes initial_rent
       loan_interest_rate property_appreciation_rate' rent_inflation_rate
       investment_return_rate loan_term rate month st').
Proof.
  unfold pool_rent_side. intros [= Hr He Hs]. simpl. now rewrite Hr, He, Hs.
Qed.

Lemma sim1_rent_side_same (n : Z) :
  sim1_rent_side
    (for_range n
       (buying_vs_renting_body pmt fv purchase_price down_payment refurbish
          nebenkost_rate maintenance_rate property_taxes initial_rent
          loan_interest_rate property_appreciation_rate rent_inflation_rate
          investment_return_rate loan_term)
       (buying_vs_renting_init down_payment)) =
  sim1_rent_side
    (for_range n
       (buying_vs_renting_body pmt fv purchase_price down_payment refurbish'
          nebenkost_rate' maintenance_rate property_taxes initial_rent
          loan_interest_rate property_appreciation_rate' rent_inflation_rate
          investment_return_rate loan_term)
       (buying_vs_renting_init down_payment)).
Proof.
  unfold for_range.
  apply (fold_left_related (fun a b => sim1_rent_side a = sim1_rent_side b));
    [| reflexivity].
  intros m a b H. now apply body1_rent_side.
Qed.

Lemma pool_rent_side_same (rate : Q) (n : Z) (init : PoolState) :
  pool_rent_side
    (for_range n
       (pool_body pmt fv purchase_price down_payment refurbish
          nebenkost_rate maintenance_rate property_taxes initial_rent
          loan_interest_rate property_appreciation_rate rent_inflation_rate
          investment_return_rate loan_term rate) init) =
  pool_rent_side
    (for_range n
       (pool_body pmt fv purchase_price down_payment refurbish'
          nebenkost_rate' maintenance_rate property_taxes initial_rent
          loan_interest_rate property_appreciation_rate' rent_inflation_rate
          investment_return_rate loan_term rate) init).
Proof.
  unfold for_range.
  apply (fold_left_related (fun a b => pool_rent_side a = pool_rent_side b));
    [| reflexivity].
  intros m a b H. now apply pool_body_rent_side.
Qed.


End SimulatorFacts.

(** ** Runs on concrete inputs *)

Example payment_known_runs :
  option_map (fun out => match out with
                         | inr a => Some (Qred (monthly_payment a), total_months a,
                                          Qred (total_interest_paid a))
                         | inl _ => None
                         end)
    (calculate_amortization 300 0.12 (Some 100) None)
  = Some (Some (100, 4%Z, 6.141103)).
Proof. vm_compute. reflexivity. Qed.

Example payment_too_low_raises :
  calculate_amortization 1200 0.06 (Some 6) None
  = Some (raise (ValueError too_low_msg)).
Proof. vm_compute. reflexivity. Qed.

Example both_given_raises :
  calculate_amortization 1200 0.06 (Some 6) (Some 1%Z)
  = Some (raise (ValueError exactly_one_msg)).
Proof. vm_compute. reflexivity. Qed.

Example zero_loan_amount_raises :
  calculate_amortization 0 0.06 (Some 6) None = Some (raise ZeroDivisionError).
Proof. vm_compute. reflexivity. Qed.

Example model1_without_months_raises :
  buying_vs_renting npf_pmt npf_fv 400 100 20 0.1 0.015 12 1 0.04 0.01 0.002
    0.04 0
  = raise (UnboundLocalError "monthly_savings").
Proof. vm_compute. reflexivity. Qed.

(** The scenario of the specification: 300000 at 4% over 30 years costs
    about 1432.25 a month. *)
Example thirty_year_payment :
  exists res,
    calculate_amortization 300000 0.04 None (Some 30%Z) = Some (ret res) /\
    1432.24 < monthly_payment res /\ monthly_payment res < 1432.26.
Proof.
  eexists. split.
  - apply term_known_positive_rate; [reflexivity | discriminate | lia].
  - cbv zeta. cbn [monthly_payment]. split; vm_compute; reflexivity.
Qed.

(** ** The theorems at concrete inputs *)

Lemma zero_rate_case_witness :
  exists res,
    calculate_amortization 1200 0 None (Some 1%Z) = Some (ret res) /\
    monthly_payment res == 1200 / inject_Z (12 * 1) /\
    total_interest_paid res == 0.
Proof.
  apply (zero_rate_case 1200 0 1); [reflexivity | lia | reflexivity].
Defined.

Lemma negative_loan_amount_witness :
  depletion_loop 0 (0.06 / 12) 6 (-5) 0 = Some (ret 0%Z) /\
  exists res,
    calculate_amortization (-5) 0.06 (Some 6) None = Some (ret res) /\
    total_months res = 0%Z /\ total_interest_paid res == 0.
Proof.
  apply (negative_loan_amount (-5) 0.06 6). reflexivity.
Defined.



(** * Further properties of the code *)

(** ** The shape of a returned result *)

(** Whatever branch returned it, a result carries the interest of the
    re-walk with its own payment and month count and the repayment rate
    of the first month, and the loan amount is not zero. *)
Lemma result_shape (P rate : Q) (mp : option Q) (lt : option Z)
    (res : AmortizationResult) :
  calculate_amortization P rate mp lt = Some (ret res) ->
  ~ P == 0 /\
  total_interest_paid res =
    snd (interest_loop (rate / 12) (monthly_payment res) P (total_months res)) /\
  initial_tilgung_rate res
    = (monthly_payment res - P * (rate / 12)) * 12 / P /\
  match mp, lt with
  | Some M, None =>
      monthly_payment res = M /\
      depletion_loop enough_fuel (rate / 12) M P 0
        = Some (ret (total_months res))
  | None, Some T => total_months res = (T * 12)%Z
  | _, _ => False
  end.
Proof.
  unfold calculate_amortization, calculate_amortization_fuel.
  set (r := rate / 12).
  assert (Hsum : forall lt' M tm months,
             amortization_summary P r lt' M tm months = ret res ->
             ~ P == 0 /\
             total_interest_paid res
               = snd (interest_loop r (monthly_payment res) P (total_months res)) /\
             initial_tilgung_rate res = (monthly_payment res - P * r) * 12 / P /\
             monthly_payment res = M /\
             match lt' with
             | None => months = Some (total_months res)
             | Some _ => total_months res = tm
             end).
  { intros lt' M tm months H. unfold amortization_summary in H.
    assert (Hin : exists tm',
               match lt' with
               | None => months = Some tm'
               | Some _ => tm' = tm
               end /\
               (itr <- py_div ((M - P * r) * 12) P ;;
                ret (mkAmortizationResult M (snd (interest_loop r M P tm')) tm'
                       itr)) = ret res).
    { destruct lt' as [T' |]; [| destruct months as [m' |]];
        try discriminate; eexists; split; try reflexivity; exact H. }
    destruct Hin as (tm' & Htm & Hin).
    destruct (Qeq_bool P 0) eqn:EP.
    - apply Qeq_bool_iff in EP. rewrite (py_div_zero _ _ EP) in Hin.
      discriminate.
    - apply Qeq_bool_false_iff in EP. rewrite (py_div_ok _ _ EP) in Hin.
      injection Hin as <-. simpl.
      repeat split; try assumption; reflexivity. }
  destruct mp as [M |], lt as [T |]; intro H; try discriminate.
  - destruct (depletion_loop enough_fuel r M P 0) as [[e | m] |] eqn:E;
      try discriminate.
    assert (H' : amortization_summary P r None M m (Some m) = ret res)
      by (injection H as H; exact H).
    apply Hsum in H'. destruct H' as (HP & Hi & Ht & HM & Hm).
    injection Hm as Hm. subst m. auto.
  - destruct (Qlt_bool 0 r).
    + destruct (py_pow_cases (1 + r) (- (T * 12))) as [Hp | Hp];
        rewrite Hp in H; [discriminate |].
      destruct (py_div_cases (r * P) (1 - (1 + r) ^ (- (T * 12)))) as [Hd | Hd].
      * exfalso. injection H as H. rewrite Hd in H. discriminate.
      * assert (H' : amortization_summary P r (Some T)
                       (r * P / (1 - (1 + r) ^ (- (T * 12)))) (T * 12) None
                     = ret res).
        { injection H as H. rewrite Hd in H. exact H. }
        apply Hsum in H'. destruct H' as (HP & Hi & Ht & HM & Hm). auto.
    + destruct (py_div_cases P (inject_Z (T * 12))) as [Hd | Hd];
        rewrite Hd in H; [discriminate |].
      assert (H' : amortization_summary P r (Some T) (P / inject_Z (T * 12))
                     (T * 12) None = ret res)
        by (injection H as H; exact H).
      apply Hsum in H'. destruct H' as (HP & Hi & Ht & HM & Hm). auto.
Qed.


(** What a returned month count says about the balances: the loop made
    [j] passes, each with a positive balance and a positive principal,
    and stopped on a balance that is not positive or on the cap. *)
Lemma depletion_loop_inv (r M : Q) (fuel : nat) :
  forall (B : Q) (months m : Z),
    depletion_loop fuel r M B months = Some (ret m) ->
    exists j : nat,
      m = (months + Z.of_nat j)%Z /\
      (forall i, (i < j)%nat ->
         0 < balance_after r M B i /\ 0 < M - balance_after r M B i * r) /\
      (balance_after r M B j <= 0 \/ (1000 * 12 < m)%Z).
Proof.
  induction fuel as [| fuel IH]; intros B months m H.
  - simpl in H. destruct (Qlt_bool 0 B) eqn:EB; [discriminate |].
    injection H as <-. exists 0%nat. apply Qlt_bool_false_iff in EB.
    split; [lia | split; [intros i Hi; lia | left; exact EB]].
  - simpl in H. destruct (Qlt_bool 0 B) eqn:EB.
    + apply Qlt_bool_iff in EB.
      destruct (Qle_bool (M - B * r) 0) eqn:EM; [discriminate |].
      apply Qle_bool_false_iff in EM.
      destruct (months + 1 >? 12000)%Z eqn:Ec.
      * injection H as <-. exists 1%nat.
        split; [lia | split].
        -- intros i Hi. replace i with 0%nat by lia. simpl. auto.
        -- right. apply Z.gtb_lt in Ec. lia.
      * apply IH in H. destruct H as (j & Hm & Hpos & Hend).
        exists (S j). split; [lia | split].
        -- intros [| i] Hi; [simpl; auto |]. simpl. apply Hpos. lia.
        -- simpl. exact Hend.
    + injection H as <-. exists 0%nat. apply Qlt_bool_false_iff in EB.
      split; [lia | split; [intros i Hi; lia | left; exact EB]].
Qed.

(** ** More about the term-known branch *)

(** X2. A term of zero years raises [ZeroDivisionError], whatever the
    loan amount and the rate. *)
Theorem zero_term_raises (P rate : Q) :
  calculate_amortization P rate None (Some 0%Z)
  = Some (raise ZeroDivisionError).
Proof.
  unfold calculate_amortization, calculate_amortization_fuel.
  set (r := rate / 12).
  destruct (Qlt_bool 0 r) eqn:Er.
  - apply Qlt_bool_iff in Er.
    rewrite py_pow_ok by lra. unfold bind at 2, ret at 1.
    rewrite py_div_zero; [reflexivity |].
    change ((1 + r) ^ (- (0 * 12))) with 1. ring.
  - rewrite py_div_zero; reflexivity.
Qed.


(** X4. A rate that is zero or negative takes the straight-line branch:
    for a loan amount that is not zero and a term of at least one year the
    payment is [P / (12*T)], independent of the rate. *)
Theorem nonpositive_rate_is_straight_line (P rate : Q) (T : Z) :
  rate <= 0 -> ~ P == 0 -> (1 <= T)%Z ->
  exists res,
    calculate_amortization P rate None (Some T) = Some (ret res) /\
    monthly_payment res == P / inject_Z (12 * T).
Proof.
  intros Hrate HP HT.
  assert (Hr : rate / 12 <= 0) by (rewrite Qdiv_12; lra).
  eexists. split.
  - apply term_known_zero_rate; [exact Hr | exact HP | exact HT].
  - simpl. now rewrite (Z.mul_comm T 12).
Qed.

(** ** The re-walk that adds up the interest *)

(** With a rate and a starting balance that are not negative, the clamp
    keeps the balance, and so the interest, from going negative. *)
Lemma interest_walk_nonneg (r M : Q) (l : list Z) :
  0 <= r ->
  forall B acc : Q, 0 <= B -> 0 <= acc ->
    0 <= snd (fold_left (interest_step r M) l (B, acc)).
Proof.
  intro Hr. induction l as [| m l IH]; intros B acc HB HS.
  - exact HS.
  - change (fold_left (interest_step r M) (m :: l) (B, acc))
      with (fold_left (interest_step r M) l (interest_step r M (B, acc) m)).
    unfold interest_step at 2.
    assert (HBr : 0 <= B * r) by (apply Qmult_le_0_compat; assumption).
    destruct (Qlt_bool (B - (M - B * r)) 0) eqn:E.
    + apply IH; lra.
    + apply Qlt_bool_false_iff in E. apply IH; lra.
Qed.


(** ** More about the payment-known branch *)

(** A payment above the first interest on a positive loan: the call
    returns after [j >= 1] passes, with what [depletion_loop_inv] says
    about them. *)
Lemma payment_known_returns (P rate M : Q) :
  0 < P -> 0 <= rate -> P * (rate / 12) < M ->
  exists j : nat,
    (1 <= j)%nat /\ (Z.of_nat j <= 1000 * 12 + 1)%Z /\
    calculate_amortization P rate (Some M) None =
      Some (ret (mkAmortizationResult M
                   (snd (interest_loop (rate / 12) M P (Z.of_nat j)))
                   (Z.of_nat j) ((M - P * (rate / 12)) * 12 / P))) /\
    (forall i, (i < j)%nat ->
       0 < balance_after (rate / 12) M P i /\
       0 < M - balance_after (rate / 12) M P i * (rate / 12)) /\
    (balance_after (rate / 12) M P j <= 0 \/ (1000 * 12 < Z.of_nat j)%Z).
Proof.
  intros HP Hrate HM.
  set (r := rate / 12) in *.
  assert (Hr : 0 <= r) by now apply monthly_rate_nonneg.
  destruct (depletion_loop_total r M enough_fuel P 0)
    as [out E]; [rewrite enough_fuel_succ; lia .. |].
  pose proof E as E'. apply depletion_loop_result in E'; [| lia].
  destruct E' as [-> | (m & -> & Hm)].
  - exfalso. revert E. apply depletion_loop_no_raise; [exact Hr | lra].
  - pose proof E as Einv. apply depletion_loop_inv in Einv.
    destruct Einv as (j & Hj & Hpos & Hend).
    rewrite Z.add_0_l in Hj. subst m.
    exists j. repeat split.
    + destruct j; [| lia]. simpl in Hend. destruct Hend; [lra | lia].
    + lia.
    + apply payment_known; [lra | exact E].
    + now apply Hpos.
    + now apply Hpos.
    + exact Hend.
Qed.

Lemma balance_after_mono (r M1 M2 : Q) (k : nat) :
  0 <= r -> M1 <= M2 ->
  forall B1 B2, B2 <= B1 ->
    balance_after r M2 B2 k <= balance_after r M1 B1 k.
Proof.
  intros Hr HM. induction k as [| k IH]; intros B1 B2 HB.
  - exact HB.
  - simpl. apply IH.
    assert (H : B2 * r <= B1 * r) by (apply Qmult_le_compat_r; assumption).
    lra.
Qed.


(** ** More about the simulators *)

Lemma for_range_nonpos {S : Type} (n : Z) (body : Z -> S -> S) (init : S) :
  (n <= 0)%Z -> for_range n body init = init.
Proof.
  intro H. unfold for_range, range. now rewrite py_range_empty by lia.
Qed.

Lemma Forall2_map_seq {A : Type} (R : A -> A -> Prop) (f g : nat -> A)
    (n : nat) :
  (forall k, R (f k) (g k)) -> Forall2 R (map f (seq 0 n)) (map g (seq 0 n)).
Proof.
  intro H. induction (seq 0 n) as [| k l IH]; simpl; constructor; auto.
Qed.

Section SeriesFacts.

Variable pmt : Q -> Z -> Q -> Q.
Variable fv : Q -> Z -> Q -> Q -> Q.
Variables purchase_price down_payment refurbish nebenkost_rate
  maintenance_rate property_taxes initial_rent loan_interest_rate
  property_appreciation_rate rent_inflation_rate investment_return_rate : Q.
Variable loan_term : Z.

Local Abbreviation run1 :=
  (buying_vs_renting pmt fv purchase_price down_payment refurbish
     nebenkost_rate maintenance_rate property_taxes initial_rent
     loan_interest_rate property_appreciation_rate rent_inflation_rate
     investment_return_rate loan_term).
Local Abbreviation run2 :=
  (buying_vs_renting2 pmt fv purchase_price down_payment refurbish
     nebenkost_rate maintenance_rate property_taxes initial_rent
     loan_interest_rate property_appreciation_rate rent_inflation_rate
     investment_return_rate loan_term).
Local Abbreviation run3 :=
  (buying_vs_renting3 pmt fv purchase_price down_payment refurbish
     nebenkost_rate maintenance_rate property_taxes initial_rent
     loan_interest_rate property_appreciation_rate rent_inflation_rate
     investment_return_rate loan_term).
Local Abbreviation checkpoint :=
  (checkpoint_buying_vs_renting pmt fv purchase_price down_payment refurbish
     nebenkost_rate maintenance_rate property_taxes initial_rent
     loan_interest_rate property_appreciation_rate rent_inflation_rate
     investment_return_rate loan_term).
Local Abbreviation st1 :=
  (sim1_state pmt fv purchase_price down_payment refurbish
     nebenkost_rate maintenance_rate property_taxes initial_rent
     loan_interest_rate property_appreciation_rate rent_inflation_rate
     investment_return_rate loan_term).
Local Abbreviation st2 :=
  (sim2_state pmt fv purchase_price down_payment refurbish
     nebenkost_rate maintenance_rate property_taxes initial_rent
     loan_interest_rate property_appreciation_rate rent_inflation_rate
     investment_return_rate loan_term).
Local Abbreviation st3 :=
  (sim3_state pmt fv purchase_price down_payment refurbish
     nebenkost_rate maintenance_rate property_taxes initial_rent
     loan_interest_rate property_appreciation_rate rent_inflation_rate
     investment_return_rate loan_term).
Local Abbreviation savings k :=
  (monthly_savings_at pmt purchase_price down_payment maintenance_rate
     property_taxes initial_rent loan_interest_rate rent_inflation_rate
     loan_term (Z.of_nat k)).
Local Abbreviation buy_at k :=
  (buy_net_worth_at pmt fv purchase_price down_payment refurbish
     nebenkost_rate loan_interest_rate property_appreciation_rate loan_term
     (Z.of_nat k)).
Local Abbreviation i := (investment_return_rate / 12).
Local Abbreviation rate2 := (buying_vs_renting2_rate loan_interest_rate).
Local Abbreviation rate3 := (buying_vs_renting3_rate loan_interest_rate).
Local Abbreviation months := (Z.to_nat (loan_term * 12)).

(** The buy series after [n] passes. *)
Lemma sim1_buy_log (n : nat) :
  sim1_buy_net_worth (st1 n) = map (fun k => buy_at k) (seq 0 n).
Proof.
  apply (log_as_map (fun n => sim1_buy_net_worth (st1 n))).
  - reflexivity.
  - intro k. unfold sim1_state. rewrite for_range_succ. reflexivity.
Qed.

Lemma sim2_buy_log (n : nat) :
  pool_buy_net_worth (st2 n) = map (fun k => buy_at k) (seq 0 n).
Proof.
  apply (log_as_map (fun n => pool_buy_net_worth (st2 n))).
  - reflexivity.
  - intro k. unfold sim2_state. rewrite for_range_succ. reflexivity.
Qed.

Lemma sim3_buy_log (n : nat) :
  pool_buy_net_worth (st3 n) = map (fun k => buy_at k) (seq 0 n).
Proof.
  apply (log_as_map (fun n => pool_buy_net_worth (st3 n))).
  - reflexivity.
  - intro k. unfold sim3_state. rewrite for_range_succ. reflexivity.
Qed.

Lemma run2_buy : buy_series run2 = pool_buy_net_worth (st2 months).
Proof.
  unfold buying_vs_renting2, buy_series. cbv zeta.
  now rewrite for_range_to_nat.
Qed.

Lemma run3_buy : buy_series run3 = pool_buy_net_worth (st3 months).
Proof.
  unfold buying_vs_renting3, buy_series. cbv zeta.
  now rewrite for_range_to_nat.
Qed.

Lemma checkpoint_series :
  checkpoint = (sim1_buy_net_worth (st1 months), sim1_rent_net_worth (st1 months),
                range (loan_term * 12)).
Proof.
  unfold checkpoint_buying_vs_renting. cbv zeta.
  now rewrite for_range_to_nat.
Qed.


(** X12. In models 2 and 3, and in model 1 when it returns, the buy
    series, the rent series and the month list all have [12 * loan_term]
    entries (none for a term that is not positive), and the month list
    counts [0, 1, ..., 12*loan_term - 1]. *)
Theorem series_lengths :
  (List.length (buy_series run2) = months /\
   List.length (rent_series run2) = months /\
   months_list run2 = map Z.of_nat (seq 0 months)) /\
  (List.length (buy_series run3) = months /\
   List.length (rent_series run3) = months /\
   months_list run3 = map Z.of_nat (seq 0 months)) /\
  (forall x, run1 = ret x ->
     List.length (buy_series (drop_savings x)) = months /\
     List.length (rent_series (drop_savings x)) = months /\
     months_list (drop_savings x) = map Z.of_nat (seq 0 months)).
Proof.
  assert (Hrange : range (loan_term * 12) = map Z.of_nat (seq 0 months)).
  { unfold range, py_range. now rewrite Z.sub_0_r. }
  split; [| split].
  - rewrite run2_buy, run2_rent, sim2_buy_log, sim2_rent_log.
    rewrite !length_map, !length_seq. auto.
  - rewrite run3_buy, run3_rent, sim3_buy_log, sim3_rent_log.
    rewrite !length_map, !length_seq. auto.
  - intros x Hx.
    destruct (Z.le_gt_cases loan_term 0) as [L | L].
    + exfalso. unfold buying_vs_renting in Hx. cbv zeta in Hx.
      rewrite for_range_nonpos in Hx by lia. discriminate.
    + rewrite run1_returns in Hx by lia. injection Hx as <-.
      unfold drop_savings, buy_series, rent_series, months_list.
      cbn [fst snd]. rewrite sim1_buy_log, sim1_rent_log.
      rewrite !length_map, !length_seq. auto.
Qed.

(** X13. The buy side is the same in the three models and keeps no
    state: entry [k] of [buy_net_worth] is the property value of month
    [k], minus the outstanding balance [npf.fv] gives for [k + 1]
    payments, minus the payment made up front. *)
Theorem buy_series_closed_form :
  buy_series run2 = map (fun k => buy_at k) (seq 0 months) /\
  buy_series run3 = map (fun k => buy_at k) (seq 0 months) /\
  (forall x, run1 = ret x ->
     buy_series (drop_savings x) = map (fun k => buy_at k) (seq 0 months)).
Proof.
  split; [| split].
  - now rewrite run2_buy, sim2_buy_log.
  - now rewrite run3_buy, sim3_buy_log.
  - intros x Hx.
    destruct (Z.le_gt_cases loan_term 0) as [L | L].
    + exfalso. unfold buying_vs_renting in Hx. cbv zeta in Hx.
      rewrite for_range_nonpos in Hx by lia. discriminate.
    + rewrite run1_returns in Hx by lia. injection Hx as <-.
      unfold drop_savings, buy_series. cbn [fst]. apply sim1_buy_log.
Qed.



(** X16. Without a down payment the allocation does not matter: the rent
    series of the three models are equal entry by entry. *)
Theorem no_down_payment_same_rent :
  down_payment == 0 ->
  Forall2 Qeq (rent_series run3) (rent_series run2) /\
  (forall rent1, rent_series1 run1 = ret rent1 ->
     Forall2 Qeq (rent_series run2) rent1).
Proof.
  intro Hdp.
  pose proof (run2_rent pmt fv purchase_price down_payment refurbish
                nebenkost_rate maintenance_rate property_taxes initial_rent
                loan_interest_rate property_appreciation_rate
                rent_inflation_rate investment_return_rate loan_term) as E2.
  pose proof (run3_rent pmt fv purchase_price down_payment refurbish
                nebenkost_rate maintenance_rate property_taxes initial_rent
                loan_interest_rate property_appreciation_rate
                rent_inflation_rate investment_return_rate loan_term) as E3.
  rewrite sim2_rent_log in E2. rewrite sim3_rent_log in E3.
  assert (H12 : forall k,
             invested_capital_ETF (st2 k) + invested_capital_savings (st2 k)
             == sim1_invested_capital (st1 k)).
  { intro k. rewrite growth_gap_12, sim2_savings_closed.
    generalize (invested_capital_ETF (st2 k)). intro E.
    rewrite Hdp. field. }
  assert (H32 : forall k,
             invested_capital_ETF (st3 k) + invested_capital_savings (st3 k)
             == invested_capital_ETF (st2 k) + invested_capital_savings (st2 k)).
  { intro k.
    rewrite (growth_gap_23 pmt fv purchase_price down_payment refurbish
               nebenkost_rate maintenance_rate property_taxes initial_rent
               loan_interest_rate property_appreciation_rate
               rent_inflation_rate investment_return_rate loan_term k).
    rewrite sim2_savings_closed, sim3_savings_closed.
    generalize (invested_capital_ETF (st3 k)). intro E.
    rewrite Hdp. field. }
  split.
  - rewrite E2, E3. apply Forall2_map_seq. intro k. apply H32.
  - intros rent1 H1.
    destruct (Z.le_gt_cases loan_term 0) as [L | L].
    + exfalso. unfold buying_vs_renting in H1. cbv zeta in H1.
      rewrite for_range_nonpos in H1 by lia. discriminate.
    + rewrite run1_returns in H1 by lia. injection H1 as <-.
      cbn [fst snd]. rewrite E2, sim1_rent_log.
      apply Forall2_map_seq. intro k. apply H12.
Qed.

End SeriesFacts.


(** ** The callbacks *)

(** X19. [update_plot1] reads only the input that [show_hide_inputs]
    shows: the content of the hidden block does not change what it
    computes. *)
Theorem update_plot1_ignores_hidden_input (n_clicks : Z) (scenario : string)
    (loan_interest_rate purchase_price down_payment : Q)
    (monthly_payment_given monthly_payment_given' : option Q)
    (loan_term_given loan_term_given' : option Z) :
  (style_get "display" (fst (show_hide_inputs scenario)) = Some "none"%string ->
   update_plot1_data n_clicks scenario loan_interest_rate purchase_price
     down_payment monthly_payment_given loan_term_given =
   update_plot1_data n_clicks scenario loan_interest_rate purchase_price
     down_payment monthly_payment_given' loan_term_given) /\
  (style_get "display" (snd (show_hide_inputs scenario)) = Some "none"%string ->
   update_plot1_data n_clicks scenario loan_interest_rate purchase_price
     down_payment monthly_payment_given loan_term_given =
   update_plot1_data n_clicks scenario loan_interest_rate purchase_price
     down_payment monthly_payment_given loan_term_given').
Proof.
  unfold show_hide_inputs, update_plot1_data.
  destruct (String.eqb scenario "monthly_payment_given"); simpl;
    split; intro H; try discriminate; reflexivity.
Qed.

(** X20. Once the button has been clicked, an empty visible input makes
    [update_plot1] fail with the "exactly one" ValueError, before any
    sweep. *)
Theorem update_plot1_empty_input (n_clicks : Z) (scenario : string)
    (loan_interest_rate purchase_price down_payment : Q)
    (monthly_payment_given : option Q) (loan_term_given : option Z) :
  n_clicks <> 0%Z ->
  (if String.eqb scenario "monthly_payment_given"
   then monthly_payment_given = None else loan_term_given = None) ->
  update_plot1_data n_clicks scenario loan_interest_rate purchase_price
    down_payment monthly_payment_given loan_term_given
  = Some (inl (Raised (ValueError exactly_one_msg))).
Proof.
  intros Hn Hempty. unfold update_plot1_data.
  apply Z.eqb_neq in Hn. rewrite Hn.
  destruct (String.eqb scenario "monthly_payment_given"); subst; reflexivity.
Qed.

(** ** The further theorems at concrete inputs *)


Lemma nonpositive_rate_is_straight_line_witness :
  exists res,
    calculate_amortization 1200 (-0.01) None (Some 1%Z) = Some (ret res) /\
    monthly_payment res == 1200 / inject_Z (12 * 1).
Proof.
  apply (nonpositive_rate_is_straight_line 1200 (-0.01) 1);
    [discriminate | discriminate | lia].
Defined.




Lemma no_down_payment_same_rent_witness :
  Forall2 Qeq
    (rent_series
       (buying_vs_renting3 npf_pmt npf_fv 400000 0 20000 0.1 0.015 1200 1000
          0.04 0.01 0.002 0.04 25))
    (rent_series
       (buying_vs_renting2 npf_pmt npf_fv 400000 0 20000 0.1 0.015 1200 1000
          0.04 0.01 0.002 0.04 25)).
Proof.
  destruct (no_down_payment_same_rent npf_pmt npf_fv 400000 0 20000 0.1
              0.015 1200 1000 0.04 0.01 0.002 0.04 25)
    as [H _]; [reflexivity | exact H].
Defined.

Lemma update_plot1_empty_input_witness :
  update_plot1_data 1 "loan_term_given" 0.04 400000 100000 (Some 1800) None
  = Some (inl (Raised (ValueError exactly_one_msg))).
Proof.
  apply (update_plot1_empty_input 1 "loan_term_given" 0.04 400000 100000
           (Some 1800) None); [discriminate | reflexivity].
Defined.

